(** * registrar: the mock v0 API (registrar/apps/api/v0/views.py)

    A shallow embedding of the views of the mock partner-integration API:
    the program listing ([MockProgramListView.get_queryset]), the
    [program] accessor of [MockProgramSpecificViewMixin] and the bulk
    enrollment handler ([MockProgramEnrollmentView.post]), together with
    the Python and framework behaviour these rely on (subscripting,
    dictionary keys, the status attached to a response or to an exception
    that leaves the view).

    Authentication ([IsAuthenticated], 401) is enforced by the framework
    before a view method runs; every statement below is about a request that
    reached the view method. *)

From Stdlib Require Import ZArith.
From stdpp Require Import gmap strings list fin_maps.

Local Open Scope string_scope.
Local Open Scope list_scope.
Local Open Scope Z_scope.

Set Warnings "-register-all".

(** ** Request data *)

(** The parsed request body ([request.data]).  A JSON object is a Python
    [dict], kept as the list of its items; [dict_get] reads the item of a
    key (the first one, should a list name a key twice).  Numbers are the
    integers; fractional literals are left out of the model. *)
Inductive json :=
  | JNull
  | JBool (b : bool)
  | JNum (n : Z)
  | JStr (s : string)
  | JList (xs : list json)
  | JDict (items : list (string * json)).

Fixpoint dict_get (items : list (string * json)) (key : string) : option json :=
  match items with
  | [] => None
  | (k, v) :: rest => if bool_decide (k = key) then Some v else dict_get rest key
  end.

(** ** Python evaluation *)

(** The exceptions that the views raise or that can escape from them. *)
Inductive exn := Http404 | PermissionDenied | ValidationError | KeyError | TypeError.

Inductive py (A : Type) :=
  | Ok (a : A)
  | Raise (e : exn).
Arguments Ok {A} a.
Arguments Raise {A} e.

(** Statements in sequence: the first exception ends the sequence. *)
#[global] Instance py_bind : MBind py := λ A B f x,
  match x with
  | Ok a => f a
  | Raise e => Raise e
  end.

(** [obj[key]] for a string [key]: a dict raises [KeyError] when the key is
    absent; a string or a list takes integer indices only and every other
    value is not subscriptable, both of which are a [TypeError]. *)
Definition subscript (obj : json) (key : string) : py json :=
  match obj with
  | JDict items =>
      match dict_get items key with
      | Some v => Ok v
      | None => Raise KeyError
      end
  | _ => Raise TypeError
  end.

(** Keys of the [response] dict.  Python compares keys with [==], under
    which [True] is [1] and [False] is [0]; lists and dicts are unhashable
    and using one as a key is a [TypeError]. *)
Inductive pykey :=
  | KNone
  | KInt (n : Z)
  | KStr (s : string).

Definition hashable (v : json) : py pykey :=
  match v with
  | JNull => Ok KNone
  | JBool b => Ok (KInt (if b then 1 else 0))
  | JNum n => Ok (KInt n)
  | JStr s => Ok (KStr s)
  | JList _ | JDict _ => Raise TypeError
  end.

#[global] Instance pykey_eq_dec : EqDecision pykey.
Proof. solve_decision. Defined.

Definition pykey_encode (k : pykey) : unit + (Z + string) :=
  match k with
  | KNone => inl ()
  | KInt n => inr (inl n)
  | KStr s => inr (inr s)
  end.

Definition pykey_decode (x : unit + (Z + string)) : pykey :=
  match x with
  | inl _ => KNone
  | inr (inl n) => KInt n
  | inr (inr s) => KStr s
  end.

#[global] Instance pykey_countable : Countable pykey.
Proof.
  refine (inj_countable' pykey_encode pykey_decode _).
  intros []; reflexivity.
Defined.

(** ** Responses and the framework boundary *)

Definition HTTP_207_MULTI_STATUS : Z := 207.
Definition HTTP_413_REQUEST_ENTITY_TOO_LARGE : Z := 413.
Definition HTTP_422_UNPROCESSABLE_ENTITY : Z := 422.

Inductive body :=
  | Text (s : string)
  | Mapping (m : gmap pykey string).

(** [Response(data, status)]; [status] may be [None]. *)
Record Response := mkResponse { data : body; status : option Z }.

(** What a view method does: it returns a response or an exception leaves
    it. *)
Inductive outcome :=
  | Returned (r : Response)
  | Raised (e : exn).

(** The status code sent to the client.  A response built with
    [status=None] is sent as 200.  The REST framework's exception handler
    answers [Http404] with 404, [PermissionDenied] with 403 and its own
    [ValidationError] with 400; any other exception is a server error. *)
Definition exception_status (e : exn) : Z :=
  match e with
  | Http404 => 404
  | PermissionDenied => 403
  | ValidationError => 400
  | KeyError | TypeError => 500
  end.

Definition http_status (o : outcome) : Z :=
  match o with
  | Returned r => default 200 (status r)
  | Raised e => exception_status e
  end.

(** ** Fixture data (registrar/apps/api/v0/data.py) *)

Record Organization := mkOrganization {
  org_key : string;
  metadata_readable : bool
}.

Record Program := mkProgram {
  program_key : string;
  managing_organization : Organization
}.

(** The tables that the views import from [registrar.apps.api.v0.data], and
    the status enumeration of the enrollment serializer.  The views are read
    relative to them: nothing below depends on their contents. *)
Class Fixtures := {
  FAKE_ORG_DICT : gmap string Organization;
  FAKE_ORG_PROGRAMS : gmap string (list Program);
  FAKE_PROGRAM_DICT : gmap string Program;
  STATUS_CHOICES : list string
}.

(** Query parameters ([request.GET]) in the order of the query string;
    [get] answers the last value given for a key. *)
Definition QueryDict := list (string * string).

Fixpoint QueryDict_get (q : QueryDict) (key : string) : option string :=
  match q with
  | [] => None
  | (k, v) :: rest =>
      match QueryDict_get rest key with
      | Some v' => Some v'
      | None => if bool_decide (k = key) then Some v else None
      end
  end.

Record Request := mkRequest {
  kwargs_program_key : string;
  request_data : json
}.

(** Control flow of the body of the [for] loop in [post]. *)
Inductive flow :=
  | Continue (response : gmap pykey string) (error_status : option Z)
  | Return (r : Response)
  | Throw (e : exn).

Section Views.
Context `{Fixtures}.

(** *** The enrollment serializer *)

(** Modelled from the spec: the [student_key] field of the serializer
    below; it must be present, a string and non-empty. *)
Definition validate_student_key (items : list (string * json)) : option string :=
  match dict_get items "student_key" with
  | Some (JStr k) => if bool_decide (k = "") then None else Some k
  | _ => None
  end.

(** Modelled from the spec: the [status] field of the serializer below; it
    must be present and a member of the allowed enumeration. *)
Definition validate_status (items : list (string * json)) : option string :=
  match dict_get items "status" with
  | Some (JStr s) => if bool_decide (s ∈ STATUS_CHOICES) then Some s else None
  | _ => None
  end.

(** Modelled from the spec: [RequestedLearnerProgramEnrollmentSerializer]
    (registrar/apps/api/serializers.py, which is missing).  The validator takes
    one untyped record; [status] must be present and a member of the
    allowed enumeration, [student_key] must be present, a string and
    non-empty; on success it yields the normalized
    [(student_key, status)] pair.  The result is [inl] of that pair when
    [is_valid()] holds and otherwise [inr] of the keys of [.errors]: the
    name of each field that failed, or [non_field_errors] when the input
    is not a record at all. *)
Definition run_validation (enrollee : json) : (string * string) + list string :=
  match enrollee with
  | JDict items =>
      match validate_student_key items, validate_status items with
      | Some k, Some s => inl (k, s)
      | Some _, None => inr ["status"]
      | None, Some _ => inr ["student_key"]
      | None, None => inr ["student_key"; "status"]
      end
  | _ => inr ["non_field_errors"]
  end.

Definition is_valid (enrollee : json) : bool :=
  match run_validation enrollee with
  | inl _ => true
  | inr _ => false
  end.

(** *** MockProgramListView *)

Definition get_queryset (GET : QueryDict) : py (list Program) :=
  match QueryDict_get GET "org" with
  | None | Some "" => Raise PermissionDenied
  | Some org_key' =>
      match FAKE_ORG_DICT !! org_key' with
      | None => Raise Http404
      | Some org =>
          if negb (metadata_readable org) then Raise PermissionDenied
          else
            match FAKE_ORG_PROGRAMS !! org_key org with
            | Some programs => Ok programs
            | None => Raise KeyError
            end
      end
  end.

(** The status of the listing: the programs of the query set are
    serialized into a 200 response. *)
Definition list_status (GET : QueryDict) : Z :=
  match get_queryset GET with
  | Ok _ => 200
  | Raise e => exception_status e
  end.

(** *** MockProgramSpecificViewMixin *)

Definition program (program_key' : string) : py Program :=
  match FAKE_PROGRAM_DICT !! program_key' with
  | None => Raise Http404
  | Some p => Ok p
  end.

(** *** MockProgramEnrollmentView *)

(** [response[enrollee['student_key']] = tag]: the subscript is read first,
    then used as a key. *)
Definition record_failure (response : gmap pykey string) (enrollee : json)
    (tag : string) : py (gmap pykey string) :=
  v ← subscript enrollee "student_key";
  k ← hashable v;
  Ok (<[k := tag]> response).

(** One round of the loop over [request.data]. *)
Definition enroll (response : gmap pykey string) (error_status : option Z)
    (enrollee : json) : flow :=
  match run_validation enrollee with
  | inl (student_key, status') =>
      if bool_decide (is_Some (response !! KStr student_key)) then
        Continue (<[KStr student_key := "duplicated"]> response)
                 (Some HTTP_207_MULTI_STATUS)
      else
        Continue (<[KStr student_key := status']> response) error_status
  | inr errors =>
      match
        (if bool_decide ("status" ∈ errors)
         then record_failure response enrollee "invalid-status"
         else record_failure response enrollee "internal-error")
      with
      | Ok response' => Continue response' (Some HTTP_207_MULTI_STATUS)
      | Raise KeyError =>
          Return (mkResponse (Text "student_key required")
                             (Some HTTP_422_UNPROCESSABLE_ENTITY))
      | Raise e => Throw e
      end
  end.

Fixpoint for_each (response : gmap pykey string) (error_status : option Z)
    (enrollees : list json) : flow :=
  match enrollees with
  | [] => Continue response error_status
  | enrollee :: rest =>
      match enroll response error_status enrollee with
      | Continue response' error_status' => for_each response' error_status' rest
      | stop => stop
      end
  end.

Definition post (request : Request) : outcome :=
  match program (kwargs_program_key request) with
  | Raise e => Raised e
  | Ok prog =>
      if negb (metadata_readable (managing_organization prog)) then
        Raised PermissionDenied
      else
        match request_data request with
        | JList enrollees =>
            if bool_decide (25 < Z.of_nat (length enrollees)) then
              Returned (mkResponse (Text "enrollement limit 25")
                                   (Some HTTP_413_REQUEST_ENTITY_TOO_LARGE))
            else
              match for_each ∅ None enrollees with
              | Continue response error_status =>
                  Returned (mkResponse (Mapping response) error_status)
              | Return r => Returned r
              | Throw e => Raised e
              end
        | _ => Raised ValidationError
        end
  end.

(** *** Vocabulary for the statements *)

(** The program named in the URL exists and its managing organization is
    metadata-readable. *)
Definition readable (program_key' : string) : bool :=
  match FAKE_PROGRAM_DICT !! program_key' with
  | Some prog => metadata_readable (managing_organization prog)
  | None => false
  end.

Definition student_key_of (enrollee : json) : option json :=
  match enrollee with
  | JDict items => dict_get items "student_key"
  | _ => None
  end.

Definition status_of (enrollee : json) : option json :=
  match enrollee with
  | JDict items => dict_get items "status"
  | _ => None
  end.

(** [enrollee] is a record that submits the non-empty student key [sub.1]
    with the allowed status [sub.2]. *)
Definition submits (enrollee : json) (sub : string * string) : Prop :=
  student_key_of enrollee = Some (JStr sub.1) ∧ sub.1 ≠ "" ∧
  status_of enrollee = Some (JStr sub.2) ∧ sub.2 ∈ STATUS_CHOICES.

(** [enrollee] is a record whose status is not an allowed value: it is
    absent, not a string, or outside the enumeration. *)
Definition status_rejected (enrollee : json) : bool :=
  match enrollee with
  | JDict items =>
      match validate_status items with
      | Some _ => false
      | None => true
      end
  | _ => false
  end.

(** [enrollee] is a record without a [student_key] field. *)
Definition lacks_student_key (enrollee : json) : bool :=
  match enrollee with
  | JDict items =>
      match dict_get items "student_key" with
      | Some _ => false
      | None => true
      end
  | _ => false
  end.

(** The tag recorded for an item that failed validation with [errors]. *)
Definition failure_tag (errors : list string) : string :=
  if bool_decide ("status" ∈ errors) then "invalid-status" else "internal-error".

(** The key of [response] under which [enrollee] is recorded, when
    [enrollee['student_key']] can be read and used as a key. *)
Definition recorded_key (enrollee : json) : option pykey :=
  match subscript enrollee "student_key" with
  | Ok v =>
      match hashable v with
      | Ok k => Some k
      | Raise _ => None
      end
  | Raise _ => None
  end.

Definition records_key (enrollee : json) : bool :=
  match recorded_key enrollee with
  | Some _ => true
  | None => false
  end.

(** [enrollee] is a record whose [student_key], if it has one, can be a
    dictionary key. *)
Definition record_shaped (enrollee : json) : bool :=
  records_key enrollee || lacks_student_key enrollee.

End Views.

(** ** Sample data

    A small directory used to run the views on concrete requests: one
    readable and one unreadable organization, each managing one program. *)

Definition org_open : Organization := mkOrganization "org-open" true.
Definition org_closed : Organization := mkOrganization "org-closed" false.
Definition prog_open : Program := mkProgram "prog-open" org_open.
Definition prog_closed : Program := mkProgram "prog-closed" org_closed.

Definition sample_fixtures : Fixtures := {|
  FAKE_ORG_DICT := {[ "org-open" := org_open; "org-closed" := org_closed ]};
  FAKE_ORG_PROGRAMS :=
    {[ "org-open" := [prog_open]; "org-closed" := [prog_closed] ]};
  FAKE_PROGRAM_DICT := {[ "prog-open" := prog_open; "prog-closed" := prog_closed ]};
  STATUS_CHOICES := ["enrolled"; "pending"]
|}.

Definition submission (student_key status' : string) : json :=
  JDict [("student_key", JStr student_key); ("status", JStr status')].

(** ** The retrieve and course views *)

(** The table of course runs per program, also imported from
    [registrar.apps.api.v0.data].  The views hand the course runs on to the
    serializer and never look inside them, so their type is left open. *)
Class CourseFixtures (CourseRun : Type) := {
  FAKE_PROGRAM_COURSE_RUNS : gmap string (list CourseRun)
}.

(** The status sent for a read view: the object or query set it returns is
    serialized into a 200 response. *)
Definition read_status {A} (result : py A) : Z :=
  match result with
  | Ok _ => 200
  | Raise e => exception_status e
  end.

Module MockProgramRetrieveView.
Section View.
Context `{Fixtures}.

Definition get_object (program_key' : string) : py Program :=
  prog ← program program_key';
  if metadata_readable (managing_organization prog) then
    program program_key'
  else
    Raise PermissionDenied.

End View.
End MockProgramRetrieveView.

Module MockProgramCourseListView.
Section View.
Context `{Fixtures} `{CourseFixtures CourseRun}.

Definition get_queryset (program_key' : string) : py (list CourseRun) :=
  prog ← program program_key';
  if metadata_readable (managing_organization prog) then
    prog' ← program program_key';
    match FAKE_PROGRAM_COURSE_RUNS !! program_key prog' with
    | Some course_runs => Ok course_runs
    | None => Raise KeyError
    end
  else
    Raise PermissionDenied.

End View.
End MockProgramCourseListView.

(** The response of [post] to a record without a student key. *)
Definition student_key_required : Response :=
  mkResponse (Text "student_key required") (Some HTTP_422_UNPROCESSABLE_ENTITY).

(** Sample course runs: the program of the readable organization has two,
    the other program has no entry. *)
Definition sample_course_runs : CourseFixtures string := {|
  FAKE_PROGRAM_COURSE_RUNS := {[ "prog-open" := ["course-1"; "course-2"] ]}
|}.

(** Tables with a gap: the directory of the sample data, with no programs
    filed under any organization, and an empty table of course runs. *)
Definition sparse_fixtures : Fixtures := {|
  FAKE_ORG_DICT := {[ "org-open" := org_open; "org-closed" := org_closed ]};
  FAKE_ORG_PROGRAMS := ∅;
  FAKE_PROGRAM_DICT := {[ "prog-open" := prog_open; "prog-closed" := prog_closed ]};
  STATUS_CHOICES := ["enrolled"; "pending"]
|}.

Definition no_course_runs : CourseFixtures string := {|
  FAKE_PROGRAM_COURSE_RUNS := ∅
|}.

(** * Properties *)

#[global] Instance KStr_inj : Inj (=) (=) KStr.
Proof. intros s1 s2 [= ->]. reflexivity. Qed.

(** ** The serializer and a single round of the loop *)

Section Enrollment.
Context `{Fixtures}.
Implicit Types (response r m : gmap pykey string) (es : option Z).
Implicit Types (enrollee e : json) (κ : pykey) (k s : string).

Lemma submits_valid e sub : submits e sub → run_validation e = inl sub.
Proof.
  destruct sub as [k s]. intros (Hk & Hne & Hs & Hin); simpl in *.
  destruct e; try discriminate. simpl in *.
  unfold run_validation, validate_student_key, validate_status.
  rewrite Hk, Hs, (bool_decide_eq_false_2 _ Hne), (bool_decide_eq_true_2 _ Hin).
  reflexivity.
Qed.

Lemma valid_submits e sub : run_validation e = inl sub → submits e sub.
Proof.
  destruct sub as [k s]. unfold run_validation, submits.
  destruct e as [| | | | |items]; try discriminate. simpl.
  unfold validate_student_key, validate_status.
  destruct (dict_get items "student_key") as [[| | |k'| |]|]; simpl;
    try (destruct (dict_get items "status") as [[| | |s'| |]|];
         repeat case_bool_decide; discriminate).
  destruct (dict_get items "status") as [[| | |s'| |]|];
    repeat case_bool_decide; try discriminate.
  intros [= -> ->]. done.
Qed.

Lemma valid_recorded_key e k s :
  run_validation e = inl (k, s) → recorded_key e = Some (KStr k).
Proof.
  intros (Hk & _)%valid_submits. simpl in Hk.
  destruct e; try discriminate. unfold recorded_key. simpl in *.
  rewrite Hk. reflexivity.
Qed.


Lemma failure_tag_cases errors :
  failure_tag errors = "invalid-status" ∨ failure_tag errors = "internal-error".
Proof. unfold failure_tag. case_bool_decide; auto. Qed.

Lemma failure_tag_not_duplicated errors : failure_tag errors ≠ "duplicated".
Proof. destruct (failure_tag_cases errors) as [-> | ->]; discriminate. Qed.

(** A valid item is recorded under its student key: with its status when
    the key is new, as a duplicate otherwise. *)
Lemma enroll_valid r es e k s :
  run_validation e = inl (k, s) →
  enroll r es e =
    if bool_decide (is_Some (r !! KStr k))
    then Continue (<[KStr k := "duplicated"]> r) (Some HTTP_207_MULTI_STATUS)
    else Continue (<[KStr k := s]> r) es.
Proof. intros Hv. unfold enroll. rewrite Hv. reflexivity. Qed.

Lemma record_failure_recorded r e tag κ :
  recorded_key e = Some κ → record_failure r e tag = Ok (<[κ := tag]> r).
Proof.
  unfold recorded_key, record_failure.
  destruct (subscript e "student_key") as [v|]; [|discriminate]. simpl.
  destruct (hashable v); [|discriminate]. simpl. congruence.
Qed.

Lemma record_failure_lacks r e tag :
  lacks_student_key e = true → record_failure r e tag = Raise KeyError.
Proof.
  destruct e as [| | | | |items]; try discriminate. simpl.
  unfold record_failure. simpl.
  destruct (dict_get items "student_key"); [discriminate | reflexivity].
Qed.

Lemma record_failure_inv r e tag r' :
  record_failure r e tag = Ok r' →
  ∃ κ, recorded_key e = Some κ ∧ r' = <[κ := tag]> r.
Proof.
  unfold recorded_key, record_failure.
  destruct (subscript e "student_key") as [v|]; [|discriminate]. simpl.
  destruct (hashable v) as [κ|]; [|discriminate]. simpl.
  intros [= <-]. eauto.
Qed.

(** An item that fails validation but has a usable key is recorded under
    it, whatever was there. *)
Lemma enroll_invalid r es e errors κ :
  run_validation e = inr errors →
  recorded_key e = Some κ →
  enroll r es e =
    Continue (<[κ := failure_tag errors]> r) (Some HTTP_207_MULTI_STATUS).
Proof.
  intros Hv Hk. unfold enroll, failure_tag. rewrite Hv.
  case_bool_decide; by rewrite (record_failure_recorded _ _ _ _ Hk).
Qed.

Lemma enroll_lacks_student_key r es e :
  lacks_student_key e = true →
  enroll r es e =
    Return (mkResponse (Text "student_key required")
                       (Some HTTP_422_UNPROCESSABLE_ENTITY)).
Proof.
  intros He. unfold enroll.
  destruct (run_validation e) as [[k s]|errors] eqn:Hv.
  - apply valid_submits in Hv as (Hk & _). simpl in Hk.
    destruct e as [| | | | |items]; try discriminate. simpl in *.
    by rewrite Hk in He.
  - case_bool_decide; by rewrite (record_failure_lacks _ _ _ He).
Qed.

Lemma enroll_recorded r es e κ :
  recorded_key e = Some κ →
  ∃ tag es', enroll r es e = Continue (<[κ := tag]> r) es' ∧
             (es' = es ∨ es' = Some HTTP_207_MULTI_STATUS).
Proof.
  intros Hk. destruct (run_validation e) as [[k s]|errors] eqn:Hv.
  - rewrite (enroll_valid _ _ _ _ _ Hv).
    rewrite (valid_recorded_key _ _ _ Hv) in Hk. injection Hk as <-.
    case_bool_decide; eauto.
  - rewrite (enroll_invalid _ _ _ _ _ Hv Hk). eauto.
Qed.

Lemma enroll_continue_inv r es e r' es' :
  enroll r es e = Continue r' es' →
  ∃ κ tag, recorded_key e = Some κ ∧ r' = <[κ := tag]> r.
Proof.
  unfold enroll. destruct (run_validation e) as [[k s]|errors] eqn:Hv.
  - pose proof (valid_recorded_key _ _ _ Hv).
    case_bool_decide; intros [= <- _]; eauto.
  - destruct (if bool_decide ("status" ∈ errors)
              then record_failure r e "invalid-status"
              else record_failure r e "internal-error") as [r1|[]] eqn:Hrec;
      try discriminate.
    intros [= <- _]. case_bool_decide;
      apply record_failure_inv in Hrec as (κ & ? & ?); eauto.
Qed.

(** ** The loop over the batch *)

Lemma for_each_app r es l1 l2 :
  for_each r es (l1 ++ l2) =
    match for_each r es l1 with
    | Continue r' es' => for_each r' es' l2
    | stop => stop
    end.
Proof.
  revert r es. induction l1 as [|e l1 IH]; intros r es; simpl; [done|].
  destruct (enroll r es e); auto.
Qed.

(** A batch in which every item has a usable key runs to its end. *)
Lemma for_each_completes r es l :
  Forall (λ e, records_key e = true) l →
  ∃ m es', for_each r es l = Continue m es'.
Proof.
  intros Hl. revert r es. induction Hl as [|e l He _ IH]; intros r es; simpl.
  - eauto.
  - unfold records_key in He.
    destruct (recorded_key e) as [κ|] eqn:Hk; [|discriminate].
    destruct (enroll_recorded r es e κ Hk) as (tag & es1 & -> & _). apply IH.
Qed.

(** Once the aggregate status is 207 it stays 207. *)
Lemma for_each_sticky r l m es' :
  for_each r (Some HTTP_207_MULTI_STATUS) l = Continue m es' →
  es' = Some HTTP_207_MULTI_STATUS.
Proof.
  revert r. induction l as [|e l IH]; intros r; simpl.
  - congruence.
  - destruct (enroll r (Some HTTP_207_MULTI_STATUS) e) as [r1 es1| |] eqn:He;
      try discriminate.
    destruct (enroll_continue_inv _ _ _ _ _ He) as (κ & tag & Hk & ->).
    destruct (enroll_recorded r (Some HTTP_207_MULTI_STATUS) e κ Hk)
      as (tag' & es2 & He' & Hes).
    rewrite He' in He. injection He as _ ->.
    destruct Hes as [-> | ->]; apply IH.
Qed.

(** Items recorded under other keys leave the entry of [κ] alone. *)
Lemma for_each_frame r es l m es' κ :
  for_each r es l = Continue m es' →
  Forall (λ e, recorded_key e ≠ Some κ) l →
  m !! κ = r !! κ.
Proof.
  intros Hrun Hl. revert r es Hrun.
  induction Hl as [|e l He _ IH]; intros r es; simpl.
  - congruence.
  - destruct (enroll r es e) as [r1 es1| |] eqn:Hstep; try discriminate.
    destruct (enroll_continue_inv _ _ _ _ _ Hstep) as (κ' & tag & Hk & ->).
    intros Hrun. rewrite (IH _ _ Hrun). apply lookup_insert_ne. congruence.
Qed.

(** Entries are overwritten but never removed. *)
Lemma for_each_keeps r es l m es' κ :
  for_each r es l = Continue m es' →
  is_Some (r !! κ) → is_Some (m !! κ).
Proof.
  revert r es. induction l as [|e l IH]; intros r es; simpl.
  - congruence.
  - destruct (enroll r es e) as [r1 es1| |] eqn:Hstep; try discriminate.
    destruct (enroll_continue_inv _ _ _ _ _ Hstep) as (κ' & tag & Hk & ->).
    intros Hrun Hr. apply (IH _ _ Hrun).
    rewrite lookup_insert. case_decide; [eauto | done].
Qed.

Lemma for_each_records r es l m es' κ :
  for_each r es l = Continue m es' →
  Exists (λ e, recorded_key e = Some κ) l →
  is_Some (m !! κ).
Proof.
  intros Hrun Hl. revert r es Hrun.
  induction Hl as [e l He|e l _ IH]; intros r es; simpl;
    destruct (enroll r es e) as [r1 es1| |] eqn:Hstep; try discriminate.
  - destruct (enroll_continue_inv _ _ _ _ _ Hstep) as (κ' & tag & Hk & ->).
    intros Hrun. apply (for_each_keeps _ _ _ _ _ _ Hrun).
    assert (κ' = κ) as -> by congruence.
    rewrite lookup_insert_eq. eauto.
  - apply IH.
Qed.


(** The run of [pre ++ e :: post], cut at [e]. *)
Lemma for_each_split r es pre e post m es' :
  for_each r es (pre ++ e :: post) = Continue m es' →
  ∃ r1 es1 r2 es2,
    for_each r es pre = Continue r1 es1 ∧
    enroll r1 es1 e = Continue r2 es2 ∧
    for_each r2 es2 post = Continue m es'.
Proof.
  rewrite for_each_app.
  destruct (for_each r es pre) as [r1 es1| |]; try discriminate. simpl.
  destruct (enroll r1 es1 e) as [r2 es2| |] eqn:He; try discriminate.
  intros Hpost. exists r1, es1, r2, es2. done.
Qed.

(** The last item of a list that satisfies a decidable property. *)
Lemma last_occurrence {A} (P : A → Prop) `{∀ x, Decision (P x)} (l : list A) :
  Exists P l →
  ∃ l1 x l2, l = l1 ++ x :: l2 ∧ P x ∧ Forall (λ y, ¬ P y) l2.
Proof.
  induction l as [|a l IH]; intros Hex; [by inversion Hex|].
  destruct (decide (Exists P l)) as [Hl|Hl].
  - destruct (IH Hl) as (l1 & x & l2 & -> & Hx & Hl2).
    exists (a :: l1), x, l2. done.
  - inversion Hex as [? ? Ha|]; [|done]. subst.
    exists [], a, l. split_and!; [done..|]. by apply not_Exists_Forall.
Qed.

(** The entry of [κ] at the end of a run is the one left by the last item
    recorded under [κ]. *)
Lemma for_each_written r es l1 z l2 m es' κ :
  for_each r es (l1 ++ z :: l2) = Continue m es' →
  Forall (λ e, recorded_key e ≠ Some κ) l2 →
  ∃ r1 es1 r2 es2,
    for_each r es l1 = Continue r1 es1 ∧
    enroll r1 es1 z = Continue r2 es2 ∧
    for_each r2 es2 l2 = Continue m es' ∧
    m !! κ = r2 !! κ.
Proof.
  intros (r1 & es1 & r2 & es2 & H1 & Hz & H2)%for_each_split Hl2.
  exists r1, es1, r2, es2. split_and!; [done..|].
  by apply (for_each_frame _ _ _ _ _ _ H2).
Qed.

Lemma student_key_recorded e k :
  student_key_of e = Some (JStr k) → recorded_key e = Some (KStr k).
Proof.
  destruct e; try discriminate. unfold recorded_key. simpl. by intros ->.
Qed.

Lemma is_valid_inl e :
  is_valid e = true → ∃ sub, run_validation e = inl sub.
Proof. unfold is_valid. destruct (run_validation e); [eauto | discriminate]. Qed.

(** ** The handler *)

(** Past the structural checks, [post] is the loop started on the empty
    result map. *)
Lemma post_loop key enrollees :
  readable key = true →
  (length enrollees ≤ 25)%nat →
  post (mkRequest key (JList enrollees)) =
    match for_each ∅ None enrollees with
    | Continue response error_status =>
        Returned (mkResponse (Mapping response) error_status)
    | Return r => Returned r
    | Throw e => Raised e
    end.
Proof.
  unfold readable, post, program. simpl.
  destruct (FAKE_PROGRAM_DICT !! key) as [prog|]; [|discriminate].
  intros -> Hlen. simpl. rewrite bool_decide_eq_false_2 by lia. reflexivity.
Qed.

Lemma for_each_fresh r es enrollees (subs : list (string * string)) :
  Forall2 submits enrollees subs →
  NoDup subs.*1 →
  (∀ k, k ∈ subs.*1 → r !! KStr k = None) →
  for_each r es enrollees =
    Continue (list_to_map (prod_map KStr id <$> subs) ∪ r) es.
Proof.
  intros Hsub. revert r.
  induction Hsub as [|e [k s] l subs He _ IH]; intros r Hnd Hfresh.
  { simpl. by rewrite (left_id_L ∅ (∪)). }
  rewrite fmap_cons in Hnd. apply NoDup_cons in Hnd as [Hk Hnd].
  assert ((list_to_map (prod_map KStr id <$> subs) : gmap pykey string) !! KStr k
          = None) as Hnew.
  { apply not_elem_of_list_to_map_1. rewrite <- list_fmap_compose.
    intros ([k' s'] & [= ->] & Hin)%list_elem_of_fmap.
    apply Hk, list_elem_of_fmap. exists (k', s'). done. }
  cbn [for_each].
  rewrite (enroll_valid _ _ _ _ _ (submits_valid _ _ He)).
  rewrite bool_decide_eq_false_2.
  2: { rewrite Hfresh; [by intros [? ?] | rewrite fmap_cons; left]. }
  rewrite IH; [|done|].
  - f_equal. rewrite fmap_cons.
    change (prod_map KStr id (k, s)) with (KStr k, s). rewrite list_to_map_cons.
    rewrite <- insert_union_r, insert_union_l; done.
  - intros k' Hk'. rewrite lookup_insert_ne.
    + apply Hfresh. rewrite fmap_cons. by right.
    + intros [= ->]. done.
Qed.

(** C1.  A batch of at most 25 records, each with a non-empty student key
    and an allowed status, the keys pairwise distinct, sent for a readable
    program: the handler answers 200 (the response carries no status of its
    own) with a result map that holds, for every submitted pair, the
    submitted status under the submitted key, and nothing else. *)
Theorem post_valid_batch key enrollees (subs : list (string * string)) :
  readable key = true →
  (length enrollees ≤ 25)%nat →
  Forall2 submits enrollees subs →
  NoDup subs.*1 →
  ∃ m,
    post (mkRequest key (JList enrollees)) = Returned (mkResponse (Mapping m) None) ∧
    http_status (post (mkRequest key (JList enrollees))) = 200 ∧
    (∀ k s, (k, s) ∈ subs → m !! KStr k = Some s) ∧
    (∀ κ, is_Some (m !! κ) → ∃ k, κ = KStr k ∧ k ∈ subs.*1).
Proof.
  intros Hread Hlen Hsub Hnd.
  assert (NoDup (prod_map KStr id <$> subs).*1) as Hnd'.
  { replace ((prod_map KStr id <$> subs).*1) with (KStr <$> subs.*1).
    - apply (NoDup_fmap_2 _). done.
    - rewrite <- !list_fmap_compose. apply list_fmap_ext. by intros ? [] ?. }
  exists (list_to_map (prod_map KStr id <$> subs)).
  rewrite (post_loop _ _ Hread Hlen).
  rewrite (for_each_fresh ∅ None _ _ Hsub Hnd) by (intros; apply lookup_empty).
  rewrite (right_id_L ∅ (∪)). split_and!; [done..| |].
  - intros k s Hin. apply elem_of_list_to_map_1; [done|].
    apply list_elem_of_fmap. exists (k, s). done.
  - intros κ [tag Hκ]. apply elem_of_list_to_map_2 in Hκ.
    apply list_elem_of_fmap in Hκ as ([k s] & [= -> ->] & Hin).
    exists k. split; [done|]. apply list_elem_of_fmap. exists (k, s). done.
Qed.

(** C6.  A list of more than 25 items sent for a readable program is
    refused as a whole: the response is the text [enrollement limit 25]
    with status 413, whatever the items are; none of them is looked at and
    the response carries no result map. *)
Theorem post_batch_too_large key enrollees :
  readable key = true →
  (25 < length enrollees)%nat →
  post (mkRequest key (JList enrollees)) =
    Returned (mkResponse (Text "enrollement limit 25") (Some 413)) ∧
  http_status (post (mkRequest key (JList enrollees))) = 413.
Proof.
  unfold readable, post, program. simpl.
  destruct (FAKE_PROGRAM_DICT !! key) as [prog|]; [|discriminate].
  intros -> Hlen. simpl. rewrite bool_decide_eq_true_2 by lia. done.
Qed.

Lemma for_each_aborts r es pre bad rest :
  Forall (λ e, record_shaped e = true) pre →
  lacks_student_key bad = true →
  for_each r es (pre ++ bad :: rest) =
    Return (mkResponse (Text "student_key required")
                       (Some HTTP_422_UNPROCESSABLE_ENTITY)).
Proof.
  intros Hpre Hbad. revert r es.
  induction Hpre as [|e pre He _ IH]; intros r es; simpl.
  - by rewrite (enroll_lacks_student_key _ _ _ Hbad).
  - apply orb_true_iff in He as [He|He].
    + unfold records_key in He.
      destruct (recorded_key e) as [κ|] eqn:Hk; [|discriminate].
      destruct (enroll_recorded r es e κ Hk) as (tag & es1 & -> & _). apply IH.
    + by rewrite (enroll_lacks_student_key _ _ _ He).
Qed.


(** C5, what the code does.  A body that is not a list, sent for a
    readable program, makes the handler raise [ValidationError] before
    anything else is done with the body: no item is processed and no
    response, hence no result map, is built.  The framework answers this
    exception with status 400, where the docstring of the view documents
    422 for an invalid request and no 400 at all. *)
Theorem post_body_not_a_list key body' :
  readable key = true →
  (∀ enrollees, body' ≠ JList enrollees) →
  post (mkRequest key body') = Raised ValidationError ∧
  http_status (post (mkRequest key body')) = 400.
Proof.
  unfold readable, post, program. simpl.
  destruct (FAKE_PROGRAM_DICT !! key) as [prog|]; [|discriminate].
  intros -> Hbody. simpl. destruct body'; try done. by destruct (Hbody xs).
Qed.

(** C8, what the code does.  The structural checks of the handler come in
    a fixed order, each before anything that follows it; the status of the
    third one is 400, where the docstring of the view documents 422 for an
    invalid request and no 400 at all:
    - an unknown program key is [Http404] (404), whatever the body;
    - a program whose managing organization is not metadata-readable is
      [PermissionDenied] (403), whatever the body;
    - for a readable program, a body that is not a list is
      [ValidationError] (400), whatever its size;
    - for a readable program, a list of more than 25 items is the 413
      response, whatever the items.
    In particular an unknown program with an oversized list is 404 and an
    unreadable program with a body that is not a list is 403. *)
Theorem post_check_order key body' :
  (FAKE_PROGRAM_DICT !! key = None →
     post (mkRequest key body') = Raised Http404 ∧
     http_status (post (mkRequest key body')) = 404) ∧
  (∀ prog, FAKE_PROGRAM_DICT !! key = Some prog →
     metadata_readable (managing_organization prog) = false →
     post (mkRequest key body') = Raised PermissionDenied ∧
     http_status (post (mkRequest key body')) = 403) ∧
  (readable key = true → (∀ enrollees, body' ≠ JList enrollees) →
     post (mkRequest key body') = Raised ValidationError ∧
     http_status (post (mkRequest key body')) = 400) ∧
  (∀ enrollees, readable key = true → body' = JList enrollees →
     (25 < length enrollees)%nat →
     post (mkRequest key body') =
       Returned (mkResponse (Text "enrollement limit 25") (Some 413)) ∧
     http_status (post (mkRequest key body')) = 413).
Proof.
  unfold readable, post, program. simpl. split_and!.
  - intros ->. done.
  - intros prog -> ->. done.
  - destruct (FAKE_PROGRAM_DICT !! key) as [prog|]; [|discriminate].
    intros -> Hbody. simpl. destruct body'; try done. by destruct (Hbody xs).
  - intros enrollees Hread -> Hlen.
    destruct (FAKE_PROGRAM_DICT !! key) as [prog|]; [|discriminate].
    rewrite Hread. simpl. rewrite bool_decide_eq_true_2 by lia. done.
Qed.

(** C9.  The program listing needs a non-empty [org] query parameter:
    without one, or with an empty one, it raises [PermissionDenied] (403);
    with a key that names no organization it raises [Http404] (404); with
    the key of an organization that is not metadata-readable it raises
    [PermissionDenied] (403). *)
Theorem get_queryset_refusals (GET : QueryDict) :
  (QueryDict_get GET "org" = None ∨ QueryDict_get GET "org" = Some "" →
     get_queryset GET = Raise PermissionDenied ∧ list_status GET = 403) ∧
  (∀ org_key', QueryDict_get GET "org" = Some org_key' → org_key' ≠ "" →
     FAKE_ORG_DICT !! org_key' = None →
     get_queryset GET = Raise Http404 ∧ list_status GET = 404) ∧
  (∀ org_key' org, QueryDict_get GET "org" = Some org_key' → org_key' ≠ "" →
     FAKE_ORG_DICT !! org_key' = Some org →
     metadata_readable org = false →
     get_queryset GET = Raise PermissionDenied ∧ list_status GET = 403).
Proof.
  unfold list_status, get_queryset. split_and!.
  - intros [-> | ->]; done.
  - intros k -> Hk ->. destruct k; done.
  - intros k org -> Hk -> ->. destruct k; done.
Qed.

(** C2, as the code has it.  A batch of at most 25 items sent for a
    readable program, in which two valid records [a] and [b] carry the same
    student key [k].  Provided every item of the batch is a record whose
    [student_key] is present and is a string, an integer, a boolean or null
    ([records_key]), and no item after [b] that fails validation carries
    [k] again, the handler answers 207 and the result map holds [duplicated]
    under [k].  In particular, when [enrolled] is an allowed status, the
    record [{student_key: a, status: enrolled}] sent twice gives the map
    that holds [duplicated] under [a] and nothing else, with status 207. *)
Theorem post_duplicate key :
  readable key = true →
  (∀ pre a mid b rest k sa sb,
     (length (pre ++ a :: mid ++ b :: rest) ≤ 25)%nat →
     submits a (k, sa) →
     submits b (k, sb) →
     Forall (λ e, records_key e = true) (pre ++ a :: mid ++ b :: rest) →
     Forall (λ e, recorded_key e = Some (KStr k) → is_valid e = true) rest →
     ∃ m,
       post (mkRequest key (JList (pre ++ a :: mid ++ b :: rest))) =
         Returned (mkResponse (Mapping m) (Some 207)) ∧
       http_status (post (mkRequest key (JList (pre ++ a :: mid ++ b :: rest)))) = 207 ∧
       m !! KStr k = Some "duplicated") ∧
  ("enrolled" ∈ STATUS_CHOICES →
     post (mkRequest key (JList [submission "a" "enrolled"; submission "a" "enrolled"])) =
       Returned (mkResponse (Mapping {[ KStr "a" := "duplicated" ]}) (Some 207)) ∧
     http_status
       (post (mkRequest key (JList [submission "a" "enrolled"; submission "a" "enrolled"])))
     = 207).
Proof.
  intros Hread. split.
  - intros pre a mid b rest k sa sb Hlen Ha Hb Hall Hrest.
    rewrite (post_loop _ _ Hread Hlen).
    destruct (for_each_completes ∅ None _ Hall) as (m & es' & Hrun).
    rewrite Hrun. simpl.
    pose proof (valid_recorded_key _ _ _ (submits_valid _ _ Ha)) as Hka.
    pose proof (valid_recorded_key _ _ _ (submits_valid _ _ Hb)) as Hkb.
    destruct (last_occurrence (λ e, recorded_key e = Some (KStr k)) (b :: rest))
      as (l1 & z & l2 & Hcut & Hz & Hl2); [by left|].
    assert (is_valid z = true) as Hvalid.
    { assert (z ∈ b :: rest) as [-> | Hin]%elem_of_cons.
      { rewrite Hcut. apply elem_of_app. right. left. }
      - unfold is_valid. by rewrite (submits_valid _ _ Hb).
      - rewrite Forall_forall in Hrest. by apply Hrest. }
    apply is_valid_inl in Hvalid as [[k' s'] Hv].
    assert (k' = k) as ->.
    { rewrite (valid_recorded_key _ _ _ Hv) in Hz. by injection Hz. }
    replace (pre ++ a :: mid ++ b :: rest)
      with ((pre ++ a :: mid ++ l1) ++ z :: l2) in Hrun.
    2: { rewrite <- !app_assoc. simpl. rewrite <- app_assoc, <- Hcut. done. }
    destruct (for_each_written _ _ _ _ _ _ _ _ Hrun Hl2)
      as (r1 & es1 & r2 & es2 & H1 & Hstep & H2 & Hm).
    assert (is_Some (r1 !! KStr k)) as Hseen.
    { apply (for_each_records _ _ _ _ _ _ H1).
      apply Exists_app. right. by left. }
    rewrite (enroll_valid _ _ _ _ _ Hv), bool_decide_eq_true_2 in Hstep by done.
    injection Hstep as <- <-.
    rewrite (for_each_sticky _ _ _ _ H2) in *.
    exists m. split_and!; [done..|]. by rewrite Hm, lookup_insert_eq.
  - intros Hin.
    assert (submits (submission "a" "enrolled") ("a", "enrolled")) as Hsub.
    { unfold submits. simpl. done. }
    rewrite (post_loop _ _ Hread) by (simpl; lia).
    cbn [for_each].
    rewrite (enroll_valid _ _ _ _ _ (submits_valid _ _ Hsub)).
    rewrite bool_decide_eq_false_2 by (rewrite lookup_empty; by intros [? ?]).
    rewrite (enroll_valid _ _ _ _ _ (submits_valid _ _ Hsub)).
    rewrite bool_decide_eq_true_2 by (rewrite lookup_insert_eq; eauto).
    rewrite insert_insert_eq, insert_empty. done.
Qed.

(** The run of a batch that an item failing validation is part of. *)
Lemma for_each_with_failure pre bad rest errors κ :
  Forall (λ e, records_key e = true) (pre ++ bad :: rest) →
  run_validation bad = inr errors →
  recorded_key bad = Some κ →
  ∃ r es m,
    for_each ∅ None pre = Continue r es ∧
    enroll r es bad =
      Continue (<[κ := failure_tag errors]> r) (Some HTTP_207_MULTI_STATUS) ∧
    for_each ∅ None (pre ++ bad :: rest) =
      Continue m (Some HTTP_207_MULTI_STATUS) ∧
    (Forall (λ e, recorded_key e ≠ Some κ) rest →
       m !! κ = Some (failure_tag errors)).
Proof.
  intros Hall Hv Hk.
  destruct (for_each_completes ∅ None _ Hall) as (m & es' & Hrun).
  destruct (for_each_split _ _ _ _ _ _ _ Hrun)
    as (r1 & es1 & r2 & es2 & H1 & Hstep & H2).
  pose proof (enroll_invalid r1 es1 _ _ _ Hv Hk) as Hbad.
  rewrite Hbad in Hstep. injection Hstep as <- <-.
  rewrite (for_each_sticky _ _ _ _ H2) in *.
  exists r1, es1, m. split_and!; [done..|].
  intros Hrest. rewrite (for_each_frame _ _ _ _ _ _ H2 Hrest).
  apply lookup_insert_eq.
Qed.



(** C7, as the code has it.  Let [e] be a record whose [student_key] is
    the empty string.  The validator rejects [e] on its [student_key]
    field.  The field is present all the same, so the round of the loop for
    [e] never stops the handler: from any state it records [e] under the
    empty key, as [invalid-status] when the status of [e] is not an allowed
    value and as [internal-error] otherwise, sets the aggregate status to
    207 and goes on.  For a readable program and a batch of at most 25
    items that contains [e], every item of which is a record whose
    [student_key] is present and is a string, an integer, a boolean or null
    ([records_key]), the handler answers 207 with a result map, in which
    the empty key holds that tag provided no later item carries the empty
    key again. *)
Theorem post_empty_student_key e :
  student_key_of e = Some (JStr "") →
  (∃ errors, run_validation e = inr errors ∧ "student_key" ∈ errors) ∧
  (∀ r es,
     enroll r es e =
       Continue
         (<[KStr "" := if status_rejected e then "invalid-status"
                       else "internal-error"]> r)
         (Some 207)) ∧
  (∀ key pre rest,
     readable key = true →
     (length (pre ++ e :: rest) ≤ 25)%nat →
     Forall (λ e', records_key e' = true) (pre ++ e :: rest) →
     ∃ m,
       post (mkRequest key (JList (pre ++ e :: rest))) =
         Returned (mkResponse (Mapping m) (Some 207)) ∧
       http_status (post (mkRequest key (JList (pre ++ e :: rest)))) = 207 ∧
       (Forall (λ e', recorded_key e' ≠ Some (KStr "")) rest →
          m !! KStr "" =
            Some (if status_rejected e then "invalid-status" else "internal-error"))).
Proof.
  intros Hk.
  assert (∃ errors, run_validation e = inr errors ∧ "student_key" ∈ errors ∧
            failure_tag errors =
              if status_rejected e then "invalid-status" else "internal-error")
    as (errors & Hv & Hin & Htag).
  { destruct e as [| | | | |items]; try discriminate. simpl in *.
    unfold validate_student_key. rewrite Hk. simpl.
    destruct (validate_status items); eexists;
      (split_and!; [reflexivity | set_solver | vm_compute; reflexivity]). }
  pose proof (student_key_recorded _ _ Hk) as Hrec.
  split_and!; [eauto| |].
  - intros r es. rewrite (enroll_invalid _ _ _ _ _ Hv Hrec). by rewrite Htag.
  - intros key pre rest Hread Hlen Hall.
    destruct (for_each_with_failure _ _ _ _ _ Hall Hv Hrec)
      as (r & es & m & _ & _ & Hrun & Hm).
    rewrite Htag in Hm.
    exists m. rewrite (post_loop _ _ Hread Hlen), Hrun. done.
Qed.

(** C10.  Let the loop reach an item [e] that fails validation and whose
    student key [κ] is already recorded, by an earlier item of the batch,
    with any entry [old].  Then round [e] overwrites that entry with
    [invalid-status] when the failure is on the status and with
    [internal-error] otherwise, never with [duplicated], and sets the
    aggregate status to 207.  If the rest of the batch runs to its end
    without carrying [κ] again, this is the entry of [κ] in the 207 response.
    Besides, no round for an item that fails validation leaves [duplicated]
    under the key of that item: the tag comes from valid items only. *)
Theorem post_invalid_overwrites key pre e errors κ r es old :
  readable key = true →
  for_each ∅ None pre = Continue r es →
  r !! κ = Some old →
  run_validation e = inr errors →
  recorded_key e = Some κ →
  for_each ∅ None (pre ++ [e]) =
    Continue (<[κ := failure_tag errors]> r) (Some 207) ∧
  failure_tag errors =
    (if bool_decide ("status" ∈ errors) then "invalid-status" else "internal-error") ∧
  failure_tag errors ≠ "duplicated" ∧
  (∀ rest,
     (length (pre ++ e :: rest) ≤ 25)%nat →
     Forall (λ e', records_key e' = true) rest →
     Forall (λ e', recorded_key e' ≠ Some κ) rest →
     ∃ m,
       post (mkRequest key (JList (pre ++ e :: rest))) =
         Returned (mkResponse (Mapping m) (Some 207)) ∧
       m !! κ = Some (failure_tag errors)) ∧
  (∀ r0 es0 e0 r' es' κ0,
     is_valid e0 = false →
     enroll r0 es0 e0 = Continue r' es' →
     recorded_key e0 = Some κ0 →
     r' !! κ0 ≠ Some "duplicated").
Proof.
  intros Hread Hpre Hold Hv Hk.
  pose proof (enroll_invalid r es _ _ _ Hv Hk) as Hstep.
  split_and!.
  - rewrite for_each_app, Hpre. simpl. by rewrite Hstep.
  - done.
  - apply failure_tag_not_duplicated.
  - intros rest Hlen Hrest Hfree.
    destruct (for_each_completes (<[κ := failure_tag errors]> r)
                (Some HTTP_207_MULTI_STATUS) _ Hrest) as (m & es' & Hrun).
    exists m. rewrite (post_loop _ _ Hread Hlen), for_each_app, Hpre.
    cbn [for_each]. rewrite Hstep, Hrun.
    rewrite (for_each_sticky _ _ _ _ Hrun). split; [done|].
    rewrite (for_each_frame _ _ _ _ _ _ Hrun Hfree). apply lookup_insert_eq.
  - intros r0 es0 e0 r' es' κ0 Hinvalid Hstep0 Hk0. unfold is_valid in Hinvalid.
    destruct (run_validation e0) as [|errors0] eqn:Hv0; [discriminate|].
    rewrite (enroll_invalid _ _ _ _ _ Hv0 Hk0) in Hstep0. injection Hstep0 as <- _.
    rewrite lookup_insert_eq. intros [= Htag].
    by apply (failure_tag_not_duplicated errors0).
Qed.

End Enrollment.

(** * The views together *)

Section ProgramViews.
Context `{Fixtures} `{CourseFixtures CourseRun}.
Implicit Types (key : string).

Lemma program_or_404 key :
  (∃ prog, FAKE_PROGRAM_DICT !! key = Some prog ∧ program key = Ok prog) ∨
  (FAKE_PROGRAM_DICT !! key = None ∧ program key = Raise Http404).
Proof. unfold program. destruct (FAKE_PROGRAM_DICT !! key); eauto. Qed.

(** X1.  The three views of a program refuse alike: when the retrieve view
    raises an exception for a program key, it is [Http404] or
    [PermissionDenied], the course listing raises the same exception for
    that key, and so does the enrollment handler, whatever the body. *)
Theorem program_views_refuse_alike key e :
  MockProgramRetrieveView.get_object key = Raise e →
  (e = Http404 ∨ e = PermissionDenied) ∧
  MockProgramCourseListView.get_queryset key = Raise e ∧
  ∀ body', post (mkRequest key body') = Raised e.
Proof.
  unfold MockProgramRetrieveView.get_object, MockProgramCourseListView.get_queryset,
    post. simpl.
  destruct (program_or_404 key) as [(prog & _ & ->) | [_ ->]]; simpl.
  - destruct (metadata_readable (managing_organization prog)); simpl.
    + discriminate.
    + intros [= <-]. auto.
  - intros [= <-]. auto.
Qed.

(** X2.  Nothing is answered for a program or an organization that is not
    metadata-readable: the retrieve view returns only the table entry of a
    readable program, the course listing and the enrollment handler return
    only for a readable program, and the program listing returns only the
    programs filed under the key of a readable organization named by a
    non-empty [org] parameter. *)
Theorem views_return_only_readable :
  (∀ key prog, MockProgramRetrieveView.get_object key = Ok prog →
     FAKE_PROGRAM_DICT !! key = Some prog ∧ readable key = true) ∧
  (∀ key course_runs, MockProgramCourseListView.get_queryset key = Ok course_runs →
     readable key = true) ∧
  (∀ key body' r, post (mkRequest key body') = Returned r → readable key = true) ∧
  (∀ GET programs, get_queryset GET = Ok programs →
     ∃ org_key' org,
       QueryDict_get GET "org" = Some org_key' ∧ org_key' ≠ "" ∧
       FAKE_ORG_DICT !! org_key' = Some org ∧
       metadata_readable org = true ∧
       FAKE_ORG_PROGRAMS !! org_key org = Some programs).
Proof.
  split_and!.
  - intros key prog. unfold MockProgramRetrieveView.get_object, readable.
    destruct (program_or_404 key) as [(p & Hp & Hprog) | [_ ->]]; [|discriminate].
    rewrite Hprog, Hp. simpl.
    destruct (metadata_readable (managing_organization p)) eqn:Hr; [|discriminate].
    by intros [= <-].
  - intros key runs. unfold MockProgramCourseListView.get_queryset, readable.
    destruct (program_or_404 key) as [(p & Hp & Hprog) | [_ ->]]; [|discriminate].
    rewrite Hprog, Hp. simpl.
    by destruct (metadata_readable (managing_organization p)).
  - intros key body' r. unfold post, readable. simpl.
    destruct (program_or_404 key) as [(p & Hp & Hprog) | [_ ->]]; [|discriminate].
    rewrite Hprog, Hp.
    by destruct (metadata_readable (managing_organization p)).
  - intros GET programs. unfold get_queryset.
    destruct (QueryDict_get GET "org") as [k|]; [|discriminate].
    destruct (decide (k = "")) as [-> | Hk]; [discriminate|].
    assert (∀ A (x y : A), match k with "" => x | String _ _ => y end = y) as Hmatch.
    { intros. by destruct k. }
    rewrite Hmatch.
    destruct (FAKE_ORG_DICT !! k) as [org|] eqn:Horg; [|discriminate].
    destruct (metadata_readable org) eqn:Hr; [|discriminate]. simpl.
    destruct (FAKE_ORG_PROGRAMS !! org_key org) as [ps|] eqn:Hps; [|discriminate].
    intros [= <-]. exists k, org. done.
Qed.

(** X3.  The course listing answers 200, 403, 404 or 500, and 500 in
    exactly one case: the program is readable and the table of course runs
    has no entry under the key the program itself carries (which need not be
    the key in the URL). *)
Theorem course_listing_status key :
  read_status (MockProgramCourseListView.get_queryset key) ∈ [200; 403; 404; 500] ∧
  (read_status (MockProgramCourseListView.get_queryset key) = 500 ↔
   ∃ prog, FAKE_PROGRAM_DICT !! key = Some prog ∧
           metadata_readable (managing_organization prog) = true ∧
           FAKE_PROGRAM_COURSE_RUNS !! program_key prog = None).
Proof.
  unfold MockProgramCourseListView.get_queryset.
  destruct (program_or_404 key) as [(p & Hp & Hprog) | [Hp ->]]; simpl.
  - rewrite Hprog. simpl.
    destruct (metadata_readable (managing_organization p)) eqn:Hr; simpl.
    + destruct (FAKE_PROGRAM_COURSE_RUNS !! program_key p) eqn:Hruns; simpl.
      * split; [set_solver|]. split; [discriminate|].
        intros (p' & Hp' & _ & Hnone). congruence.
      * split; [set_solver|]. split; [eauto|done].
    + split; [set_solver|]. split; [discriminate|].
      intros (p' & Hp' & Hr' & _). congruence.
  - split; [set_solver|]. split; [discriminate|].
    intros (p' & Hp' & _). congruence.
Qed.

(** X4.  The program listing answers 200, 403, 404 or 500, and 500 in
    exactly one case: the [org] parameter names a readable organization and
    the table of programs has no entry under the key that organization
    carries. *)
Theorem program_listing_status (GET : QueryDict) :
  list_status GET ∈ [200; 403; 404; 500] ∧
  (list_status GET = 500 ↔
   ∃ org_key' org,
     QueryDict_get GET "org" = Some org_key' ∧ org_key' ≠ "" ∧
     FAKE_ORG_DICT !! org_key' = Some org ∧
     metadata_readable org = true ∧
     FAKE_ORG_PROGRAMS !! org_key org = None).
Proof.
  unfold list_status, get_queryset.
  destruct (QueryDict_get GET "org") as [k|]; simpl.
  2: { split; [set_solver|]. split; [discriminate | by intros (? & ? & ? & _)]. }
  destruct (decide (k = "")) as [-> | Hk]; simpl.
  { split; [set_solver|]. split; [discriminate|].
    by intros (? & ? & [= <-] & ? & _). }
  assert (∀ A (x y : A), match k with "" => x | String _ _ => y end = y) as Hmatch.
  { intros. by destruct k. }
  rewrite Hmatch.
  destruct (FAKE_ORG_DICT !! k) as [org|] eqn:Horg; simpl.
  2: { split; [set_solver|]. split; [discriminate|].
       intros (? & ? & [= <-] & _ & ? & _). congruence. }
  destruct (metadata_readable org) eqn:Hr; simpl.
  2: { split; [set_solver|]. split; [discriminate|].
       intros (? & ? & [= <-] & _ & ? & ? & _). congruence. }
  destruct (FAKE_ORG_PROGRAMS !! org_key org) as [ps|] eqn:Hps; simpl.
  - split; [set_solver|]. split; [discriminate|].
    intros (? & ? & [= <-] & _ & ? & _ & ?). congruence.
  - split; [set_solver|]. split; [|done]. intros _. exists k, org. done.
Qed.

End ProgramViews.

(** * The enrollment handler as a whole *)

Section EnrollmentLaws.
Context `{Fixtures}.
Implicit Types (response r m : gmap pykey string) (es : option Z).
Implicit Types (enrollee e : json) (κ : pykey) (k s : string) (key : string).

(** The loop stops with a response only at a record without a student key,
    and the response is always the same. *)
Lemma enroll_return_inv r es e resp :
  enroll r es e = Return resp →
  resp = student_key_required ∧ lacks_student_key e = true.
Proof.
  unfold enroll. destruct (run_validation e) as [[k s]|errors].
  { case_bool_decide; discriminate. }
  assert (∀ tag, record_failure r e tag = Raise KeyError →
            lacks_student_key e = true) as Hlacks.
  { intros tag. unfold record_failure, subscript. destruct e; try discriminate.
    simpl. destruct (dict_get items "student_key") as [v|]; [|done]. simpl.
    destruct (hashable v) eqn:Hv; [discriminate|]. simpl.
    destruct v; simpl in Hv; congruence. }
  case_bool_decide.
  - destruct (record_failure r e "invalid-status") as [|[]] eqn:Hrec;
      try discriminate. intros [= <-]. eauto.
  - destruct (record_failure r e "internal-error") as [|[]] eqn:Hrec;
      try discriminate. intros [= <-]. eauto.
Qed.

Lemma enroll_record_shaped r es e :
  record_shaped e = true →
  (∃ r' es', enroll r es e = Continue r' es' ∧
             (es' = es ∨ es' = Some HTTP_207_MULTI_STATUS)) ∨
  enroll r es e = Return student_key_required.
Proof.
  intros [He|He]%orb_true_iff.
  - left. unfold records_key in He.
    destruct (recorded_key e) as [κ|] eqn:Hk; [|discriminate].
    destruct (enroll_recorded r es e κ Hk) as (tag & es' & -> & Hes). eauto.
  - right. by apply enroll_lacks_student_key.
Qed.

(** The aggregate status only ever moves to 207. *)
Lemma for_each_status r es l m es' :
  for_each r es l = Continue m es' →
  es' = es ∨ es' = Some HTTP_207_MULTI_STATUS.
Proof.
  revert r es. induction l as [|e l IH]; intros r es; simpl.
  - intros [= _ <-]. auto.
  - destruct (enroll r es e) as [r1 es1| |] eqn:He; try discriminate.
    destruct (enroll_continue_inv _ _ _ _ _ He) as (κ & tag & Hk & ->).
    destruct (enroll_recorded r es e κ Hk) as (tag' & es2 & He' & Hes).
    rewrite He' in He. injection He as _ ->.
    intros Hrun. destruct Hes as [-> | ->].
    + by apply (IH _ _ Hrun).
    + right. by apply (for_each_sticky _ _ _ _ Hrun).
Qed.

Lemma for_each_return_inv r es l resp :
  for_each r es l = Return resp →
  resp = student_key_required ∧ Exists (λ e, lacks_student_key e = true) l.
Proof.
  revert r es. induction l as [|e l IH]; intros r es; simpl; [discriminate|].
  destruct (enroll r es e) as [r1 es1|resp'|] eqn:He; try discriminate.
  - intros [-> Hex]%IH. split; [done | by right].
  - intros [= <-]. apply enroll_return_inv in He as [-> He]. split; [done | by left].
Qed.

Lemma for_each_record_shaped r es l :
  Forall (λ e, record_shaped e = true) l →
  (∃ m es', for_each r es l = Continue m es') ∨
  for_each r es l = Return student_key_required.
Proof.
  intros Hl. revert r es. induction Hl as [|e l He _ IH]; intros r es; simpl.
  - eauto.
  - destruct (enroll_record_shaped r es e He) as [(r1 & es1 & -> & _) | ->]; auto.
Qed.

(** X5.  Sent a list of records (each with a student key that can be a
    dictionary key, or with none), the handler answers with one of the
    statuses 200, 207, 403, 404, 413 and 422, for any program key and any
    length of the list: no exception other than [Http404] and
    [PermissionDenied] leaves it. *)
Theorem post_documented_statuses key enrollees :
  Forall (λ e, record_shaped e = true) enrollees →
  http_status (post (mkRequest key (JList enrollees))) ∈ [200; 207; 403; 404; 413; 422].
Proof.
  intros Hl. unfold post. simpl.
  destruct (program key) as [prog|e] eqn:Hprog.
  2: { unfold program in Hprog.
       destruct (FAKE_PROGRAM_DICT !! key); simplify_eq. simpl. set_solver. }
  destruct (metadata_readable (managing_organization prog)); simpl; [|set_solver].
  case_bool_decide; simpl; [set_solver|].
  destruct (for_each_record_shaped ∅ None _ Hl) as [(m & es' & Hrun) | ->].
  - rewrite Hrun. destruct (for_each_status _ _ _ _ _ Hrun) as [-> | ->];
      simpl; set_solver.
  - simpl. set_solver.
Qed.

(** A run that ends with no aggregate status saw only valid records, each
    with a key that was new. *)
Lemma for_each_clean r es l m :
  for_each r es l = Continue m None →
  ∃ subs : list (string * string),
    Forall2 submits l subs ∧ NoDup subs.*1 ∧
    ∀ k, k ∈ subs.*1 → r !! KStr k = None.
Proof.
  revert r es. induction l as [|e l IH]; intros r es; simpl.
  - intros _. exists []. split_and!; [constructor | constructor | by inversion 1].
  - destruct (enroll r es e) as [r1 es1| |] eqn:He; try discriminate.
    intros Hrun. destruct (run_validation e) as [[k s]|errors] eqn:Hv.
    + rewrite (enroll_valid _ _ _ _ _ Hv) in He.
      case_bool_decide as Hseen.
      { injection He as <- <-. by apply for_each_sticky in Hrun. }
      injection He as <- <-.
      destruct (IH _ _ Hrun) as (subs & Hsubs & Hnd & Hfresh).
      exists ((k, s) :: subs). rewrite fmap_cons. split_and!.
      * constructor; [by apply valid_submits | done].
      * constructor; [|done]. intros Hin. apply Hfresh in Hin.
        by rewrite lookup_insert_eq in Hin.
      * intros k' [-> | Hin]%elem_of_cons.
        -- simpl. destruct (r !! KStr k) eqn:Hr; [|done]. destruct Hseen. eauto.
        -- apply Hfresh in Hin. by apply lookup_insert_None in Hin as [? _].
    + destruct (enroll_continue_inv _ _ _ _ _ He) as (κ & tag & Hk & ->).
      rewrite (enroll_invalid _ _ _ _ _ Hv Hk) in He. injection He as _ <-.
      by apply for_each_sticky in Hrun.
Qed.

(** X6.  For a readable program and a list of at most 25 items, the answer
    is 200 exactly when every item is a valid record and no two items carry
    the same student key.  One duplicate, one record that fails validation
    or one item that is not a record is enough for another status. *)
Theorem post_ok_iff key enrollees :
  readable key = true →
  (length enrollees ≤ 25)%nat →
  http_status (post (mkRequest key (JList enrollees))) = 200 ↔
  ∃ subs : list (string * string), Forall2 submits enrollees subs ∧ NoDup subs.*1.
Proof.
  intros Hread Hlen. rewrite (post_loop _ _ Hread Hlen). split.
  - destruct (for_each ∅ None enrollees) as [m es'|resp|e] eqn:Hrun; simpl.
    + destruct (for_each_status _ _ _ _ _ Hrun) as [-> | ->]; [|discriminate].
      intros _. destruct (for_each_clean _ _ _ _ Hrun) as (subs & ? & ? & _). eauto.
    + apply for_each_return_inv in Hrun as [-> _]. discriminate.
    + destruct e; discriminate.
  - intros (subs & Hsubs & Hnd).
    rewrite (for_each_fresh ∅ None _ _ Hsubs Hnd) by (intros; apply lookup_empty).
    done.
Qed.

(** X7.  For a readable program and a list of at most 25 items, the handler
    answers [student_key required] with 422 only if some item is a record
    without a [student_key] field; and it does answer so whenever the list
    has such a record and every item of the list is a record whose
    [student_key], if it has one, is a string, an integer, a boolean or
    null ([record_shaped]). *)
Theorem post_422_iff key enrollees :
  readable key = true →
  (length enrollees ≤ 25)%nat →
  (http_status (post (mkRequest key (JList enrollees))) = 422 →
   post (mkRequest key (JList enrollees)) = Returned student_key_required ∧
   Exists (λ e, lacks_student_key e = true) enrollees) ∧
  (Forall (λ e, record_shaped e = true) enrollees →
   Exists (λ e, lacks_student_key e = true) enrollees →
   post (mkRequest key (JList enrollees)) = Returned student_key_required).
Proof.
  intros Hread Hlen. rewrite (post_loop _ _ Hread Hlen). split.
  - destruct (for_each ∅ None enrollees) as [m es'|resp|e] eqn:Hrun; simpl.
    + destruct (for_each_status _ _ _ _ _ Hrun) as [-> | ->]; discriminate.
    + apply for_each_return_inv in Hrun as [-> Hex]. done.
    + destruct e; discriminate.
  - intros Hall (bad & Hin & Hbad)%Exists_exists.
    apply list_elem_of_split in Hin as (pre & rest & ->).
    apply Forall_app in Hall as [Hpre _].
    by rewrite (for_each_aborts _ _ _ _ _ Hpre Hbad).
Qed.

(** The keys of the map at the end of a run: those it started with and
    those of the items. *)
Lemma for_each_keys r es l m es' κ :
  for_each r es l = Continue m es' →
  is_Some (m !! κ) ↔
  is_Some (r !! κ) ∨ Exists (λ e, recorded_key e = Some κ) l.
Proof.
  intros Hrun. split.
  - intros Hm. destruct (decide (Exists (λ e, recorded_key e = Some κ) l)) as [|Hno].
    { by right. }
    left. apply not_Exists_Forall in Hno; [|apply _].
    by rewrite <- (for_each_frame _ _ _ _ _ _ Hrun Hno).
  - intros [Hr | Hex].
    + by apply (for_each_keeps _ _ _ _ _ _ Hrun).
    + by apply (for_each_records _ _ _ _ _ _ Hrun).
Qed.

Lemma for_each_size r es l m es' :
  for_each r es l = Continue m es' →
  (size m ≤ size r + length l)%nat.
Proof.
  revert r es. induction l as [|e l IH]; intros r es; simpl.
  - intros [= <- _]. lia.
  - destruct (enroll r es e) as [r1 es1| |] eqn:He; try discriminate.
    destruct (enroll_continue_inv _ _ _ _ _ He) as (κ & tag & _ & ->).
    intros Hrun%IH. destruct (r !! κ) eqn:Hr.
    + rewrite map_size_insert_Some in Hrun by eauto. lia.
    + rewrite map_size_insert_None in Hrun by done. lia.
Qed.

(** X8.  When the handler answers with a result map, the keys of the map
    are exactly the student keys of the items of the batch, so the map has
    at most as many entries as the batch has items, hence at most 25. *)
Theorem post_result_keys key enrollees m es :
  post (mkRequest key (JList enrollees)) = Returned (mkResponse (Mapping m) es) →
  (∀ κ, is_Some (m !! κ) ↔ Exists (λ e, recorded_key e = Some κ) enrollees) ∧
  (size m ≤ length enrollees)%nat ∧
  (size m ≤ 25)%nat.
Proof.
  unfold post. simpl.
  destruct (program key) as [prog|]; [|discriminate].
  destruct (metadata_readable (managing_organization prog)); simpl; [|discriminate].
  case_bool_decide as Hlen; [discriminate|].
  destruct (for_each ∅ None enrollees) as [m' es'|resp|] eqn:Hrun; try discriminate.
  2: { apply for_each_return_inv in Hrun as [-> _]. discriminate. }
  intros [= -> ->].
  pose proof (for_each_size _ _ _ _ _ Hrun) as Hsize.
  rewrite map_size_empty in Hsize.
  split_and!; [|lia..].
  intros κ. rewrite (for_each_keys _ _ _ _ _ κ Hrun), lookup_empty.
  split; [|by right]. intros [[? ?] | ?]; done.
Qed.

Lemma for_each_tags r es l m es' :
  for_each r es l = Continue m es' →
  map_Forall (λ _ tag, tag ∈ STATUS_CHOICES ∨ tag = "duplicated" ∨
                         tag = "invalid-status" ∨ tag = "internal-error") r →
  map_Forall (λ _ tag, tag ∈ STATUS_CHOICES ∨ tag = "duplicated" ∨
                         tag = "invalid-status" ∨ tag = "internal-error") m.
Proof.
  revert r es. induction l as [|e l IH]; intros r es; simpl.
  - by intros [= <- _].
  - destruct (enroll r es e) as [r1 es1| |] eqn:He; try discriminate.
    intros Hrun Hr. apply (IH _ _ Hrun). clear Hrun IH.
    destruct (run_validation e) as [[k s]|errors] eqn:Hv.
    + rewrite (enroll_valid _ _ _ _ _ Hv) in He.
      apply valid_submits in Hv as (_ & _ & _ & Hs). simpl in Hs.
      case_bool_decide; injection He as <- _;
        apply map_Forall_insert_2; auto.
    + destruct (enroll_continue_inv _ _ _ _ _ He) as (κ & tag & Hk & _).
      rewrite (enroll_invalid _ _ _ _ _ Hv Hk) in He. injection He as <- _.
      apply map_Forall_insert_2; [|done].
      destruct (failure_tag_cases errors) as [-> | ->]; auto.
Qed.

(** X9.  Every entry of a result map that the handler answers with is an
    allowed status or one of the three tags [duplicated], [invalid-status]
    and [internal-error]. *)
Theorem post_result_tags key enrollees m es κ tag :
  post (mkRequest key (JList enrollees)) = Returned (mkResponse (Mapping m) es) →
  m !! κ = Some tag →
  tag ∈ STATUS_CHOICES ∨ tag = "duplicated" ∨ tag = "invalid-status" ∨
  tag = "internal-error".
Proof.
  unfold post. simpl.
  destruct (program key) as [prog|]; [|discriminate].
  destruct (metadata_readable (managing_organization prog)); simpl; [|discriminate].
  case_bool_decide as Hlen; [discriminate|].
  destruct (for_each ∅ None enrollees) as [m' es'|resp|] eqn:Hrun; try discriminate.
  2: { apply for_each_return_inv in Hrun as [-> _]. discriminate. }
  intros [= -> ->] Hm.
  apply (for_each_tags _ _ _ _ _ Hrun (map_Forall_empty _) _ _ Hm).
Qed.

(** X10.  The last item that carries a student key decides the entry of
    that key in the result map: a record that fails validation leaves
    [invalid-status] or [internal-error]; a valid record leaves its status
    if no earlier item carries the key, and [duplicated] if one does. *)
Theorem post_last_item_decides key l1 z l2 m es κ :
  post (mkRequest key (JList (l1 ++ z :: l2))) = Returned (mkResponse (Mapping m) es) →
  recorded_key z = Some κ →
  Forall (λ e, recorded_key e ≠ Some κ) l2 →
  m !! κ =
    Some match run_validation z with
         | inl (_, status') =>
             if bool_decide (Exists (λ e, recorded_key e = Some κ) l1)
             then "duplicated" else status'
         | inr errors => failure_tag errors
         end.
Proof.
  unfold post. simpl.
  destruct (program key) as [prog|]; [|discriminate].
  destruct (metadata_readable (managing_organization prog)); simpl; [|discriminate].
  case_bool_decide as Hlen; [discriminate|].
  destruct (for_each ∅ None (l1 ++ z :: l2)) as [m' es'|resp|] eqn:Hrun;
    try discriminate.
  2: { apply for_each_return_inv in Hrun as [-> _]. discriminate. }
  intros [= -> ->] Hk Hl2.
  destruct (for_each_written _ _ _ _ _ _ _ _ Hrun Hl2)
    as (r1 & es1 & r2 & es2 & H1 & Hstep & _ & ->).
  pose proof (for_each_keys _ _ _ _ _ κ H1) as Hkeys.
  rewrite lookup_empty in Hkeys.
  destruct (run_validation z) as [[k s]|errors] eqn:Hv.
  - rewrite (valid_recorded_key _ _ _ Hv) in Hk. injection Hk as <-.
    rewrite (enroll_valid _ _ _ _ _ Hv) in Hstep.
    case_bool_decide as Hseen.
    + injection Hstep as <- _. rewrite lookup_insert_eq.
      rewrite bool_decide_eq_true_2; [done|].
      apply Hkeys in Hseen as [[? ?] | ?]; done.
    + injection Hstep as <- _. rewrite lookup_insert_eq.
      rewrite bool_decide_eq_false_2; [done|].
      intros Hex. apply Hseen, Hkeys. by right.
  - rewrite (enroll_invalid _ _ _ _ _ Hv Hk) in Hstep. injection Hstep as <- _.
    apply lookup_insert_eq.
Qed.

(** Two valid records next to each other can change places. *)
Lemma for_each_swap_valid r es a b l :
  is_valid a = true → is_valid b = true →
  for_each r es (a :: b :: l) = for_each r es (b :: a :: l).
Proof.
  intros [[ka sa] Ha]%is_valid_inl [[kb sb] Hb]%is_valid_inl.
  cbn [for_each].
  rewrite (enroll_valid r es _ _ _ Ha), (enroll_valid r es _ _ _ Hb).
  destruct (decide (ka = kb)) as [-> | Hne].
  - case_bool_decide as Hseen.
    + rewrite (enroll_valid _ _ _ _ _ Ha), (enroll_valid _ _ _ _ _ Hb).
      rewrite !bool_decide_eq_true_2 by (rewrite lookup_insert_eq; eauto).
      done.
    + rewrite (enroll_valid _ _ _ _ _ Ha), (enroll_valid _ _ _ _ _ Hb).
      rewrite !bool_decide_eq_true_2 by (rewrite lookup_insert_eq; eauto).
      by rewrite !insert_insert_eq.
  - assert (KStr ka ≠ KStr kb) as Hne' by congruence.
    assert (∀ es1 es2 tag,
              enroll (<[KStr ka := tag]> r) es1 b =
                if bool_decide (is_Some (r !! KStr kb))
                then Continue (<[KStr kb := "duplicated"]> (<[KStr ka := tag]> r))
                              (Some HTTP_207_MULTI_STATUS)
                else Continue (<[KStr kb := sb]> (<[KStr ka := tag]> r)) es1) as Hb'.
    { intros. rewrite (enroll_valid _ _ _ _ _ Hb).
      by rewrite lookup_insert_ne by done. }
    assert (∀ es1 tag,
              enroll (<[KStr kb := tag]> r) es1 a =
                if bool_decide (is_Some (r !! KStr ka))
                then Continue (<[KStr ka := "duplicated"]> (<[KStr kb := tag]> r))
                              (Some HTTP_207_MULTI_STATUS)
                else Continue (<[KStr ka := sa]> (<[KStr kb := tag]> r)) es1) as Ha'.
    { intros. rewrite (enroll_valid _ _ _ _ _ Ha).
      by rewrite lookup_insert_ne by done. }
    do 2 case_bool_decide; rewrite ?Hb', ?Ha' by exact None;
      repeat (rewrite bool_decide_eq_true_2 by done);
      repeat (rewrite bool_decide_eq_false_2 by done);
      by rewrite (insert_insert_ne _ (KStr ka) (KStr kb)) by done.
Qed.

Lemma for_each_permutation l l' :
  l ≡ₚ l' →
  Forall (λ e, is_valid e = true) l →
  ∀ r es, for_each r es l = for_each r es l'.
Proof.
  induction 1 as [|e l l' Hperm IH|a b l|l l' l'' Hp1 IH1 Hp2 IH2]; intros Hvalid r es.
  - done.
  - apply Forall_cons in Hvalid as [He Hl]. simpl.
    destruct (enroll r es e); [by apply IH | done..].
  - apply Forall_cons in Hvalid as [Ha [Hb _]%Forall_cons].
    by apply for_each_swap_valid.
  - rewrite IH1 by done. apply IH2. by rewrite <- Hp1.
Qed.

(** X11.  The order of a batch of valid records does not matter: the
    handler gives the same answer to every rearrangement of it. *)
Theorem post_permutation key enrollees enrollees' :
  enrollees ≡ₚ enrollees' →
  Forall (λ e, is_valid e = true) enrollees →
  post (mkRequest key (JList enrollees)) = post (mkRequest key (JList enrollees')).
Proof.
  intros Hperm Hvalid. unfold post. simpl.
  rewrite (for_each_permutation _ _ Hperm Hvalid), (Permutation_length Hperm).
  done.
Qed.

(** X12.  For a readable program and a body that is a list, the answer is
    413 exactly when the list has more than 25 items: a list of 25 is still
    processed, and nothing else is answered with 413. *)
Theorem post_413_iff key enrollees :
  readable key = true →
  http_status (post (mkRequest key (JList enrollees))) = 413 ↔
  (25 < length enrollees)%nat.
Proof.
  intros Hread. split.
  - intros Hstatus. destruct (decide (25 < length enrollees)%nat) as [|Hlen]; [done|].
    rewrite (post_loop _ _ Hread) in Hstatus by lia.
    destruct (for_each ∅ None enrollees) as [m es'|resp|e] eqn:Hrun; simpl in *.
    + destruct (for_each_status _ _ _ _ _ Hrun) as [-> | ->]; discriminate.
    + apply for_each_return_inv in Hrun as [-> _]. discriminate.
    + destruct e; discriminate.
  - intros Hlen. revert Hread. unfold readable, post, program. simpl.
    destruct (FAKE_PROGRAM_DICT !! key) as [prog|]; [|discriminate].
    intros ->. simpl. by rewrite bool_decide_eq_true_2 by lia.
Qed.

End EnrollmentLaws.

(** * Concrete runs on the sample data *)

Ltac decided := apply (bool_decide_unpack _); vm_compute; exact I.

Ltac evaluated :=
  repeat first
    [ reflexivity | discriminate | lia | split
    | apply Forall_nil | apply Forall_cons
    | apply Forall2_nil | apply Forall2_cons
    | decided ].

(** Items that are not records, or whose student key cannot be a dictionary
    key, are outside what the handler catches: the [TypeError] leaves the
    view and the client gets a server error. *)
Example post_item_not_a_record :
  @post sample_fixtures (mkRequest "prog-open" (JList [JStr "abc"])) = Raised TypeError ∧
  http_status (@post sample_fixtures (mkRequest "prog-open" (JList [JStr "abc"]))) = 500.
Proof. split; reflexivity. Qed.

Example post_unhashable_student_key :
  @post sample_fixtures
    (mkRequest "prog-open"
       (JList [JDict [("student_key", JList [JStr "a"]); ("status", JStr "enrolled")]]))
  = Raised TypeError.
Proof. reflexivity. Qed.

Example list_programs_of_readable_org :
  @get_queryset sample_fixtures [("org", "org-open")] = Ok [prog_open] ∧
  @list_status sample_fixtures [("org", "org-open")] = 200.
Proof. split; reflexivity. Qed.

Lemma post_valid_batch_run :
  ∃ m,
    @post sample_fixtures
      (mkRequest "prog-open" (JList [submission "a" "enrolled"; submission "b" "pending"]))
    = Returned (mkResponse (Mapping m) None) ∧
    m !! KStr "a" = Some "enrolled" ∧ m !! KStr "b" = Some "pending".
Proof.
  destruct (@post_valid_batch sample_fixtures "prog-open"
              [submission "a" "enrolled"; submission "b" "pending"]
              [("a", "enrolled"); ("b", "pending")])
    as (m & Hpost & _ & Hm & _).
  - reflexivity.
  - simpl; lia.
  - evaluated.
  - evaluated.
  - exists m. split; [exact Hpost|]. split; apply Hm; decided.
Defined.

Lemma post_duplicate_run :
  (∃ m,
     @post sample_fixtures
       (mkRequest "prog-open"
          (JList [submission "x" "pending"; submission "a" "enrolled";
                  submission "a" "pending"; submission "a" "enrolled"]))
     = Returned (mkResponse (Mapping m) (Some 207)) ∧
     m !! KStr "a" = Some "duplicated") ∧
  @post sample_fixtures
    (mkRequest "prog-open" (JList [submission "a" "enrolled"; submission "a" "enrolled"]))
  = Returned (mkResponse (Mapping {[ KStr "a" := "duplicated" ]}) (Some 207)).
Proof.
  destruct (@post_duplicate sample_fixtures "prog-open") as [Hgen Hex].
  - reflexivity.
  - split.
    + destruct (Hgen [submission "x" "pending"] (submission "a" "enrolled") []
                  (submission "a" "pending") [submission "a" "enrolled"]
                  "a" "enrolled" "pending")
        as (m & Hpost & _ & Hm).
      * simpl; lia.
      * evaluated.
      * evaluated.
      * evaluated.
      * evaluated.
      * exists m. split; [exact Hpost | exact Hm].
    + apply Hex. decided.
Defined.

(** Two valid records for [a] followed by a record for [a] with a status
    that is not allowed: the entry of [a] ends as [invalid-status], not as
    [duplicated]. *)
Lemma later_failure_replaces_duplicate :
  @readable sample_fixtures "prog-open" = true ∧
  @is_valid sample_fixtures (submission "a" "enrolled") = true ∧
  @post sample_fixtures
    (mkRequest "prog-open"
       (JList [submission "a" "enrolled"; submission "a" "enrolled";
               submission "a" "bogus"]))
  = Returned (mkResponse (Mapping {[ KStr "a" := "invalid-status" ]}) (Some 207)) ∧
  ¬ ∃ m es,
      @post sample_fixtures
        (mkRequest "prog-open"
           (JList [submission "a" "enrolled"; submission "a" "enrolled";
                   submission "a" "bogus"]))
      = Returned (mkResponse (Mapping m) es) ∧
      m !! KStr "a" = Some "duplicated".
Proof.
  split_and!; [reflexivity | reflexivity | by vm_compute |].
  intros (m & es & Hpost & Hm). vm_compute in Hpost.
  injection Hpost as <- _. vm_compute in Hm. discriminate.
Qed.





Lemma post_body_not_a_list_run :
  @post sample_fixtures (mkRequest "prog-open" (JDict [("student_key", JStr "a")]))
  = Raised ValidationError.
Proof.
  apply (@post_body_not_a_list sample_fixtures "prog-open"
           (JDict [("student_key", JStr "a")])); [reflexivity | discriminate].
Defined.

(** A JSON object sent for a readable program is answered with 400, not
    with 422. *)
Lemma malformed_body_is_not_422 :
  @readable sample_fixtures "prog-open" = true ∧
  http_status (@post sample_fixtures (mkRequest "prog-open" (JDict []))) = 400 ∧
  http_status (@post sample_fixtures (mkRequest "prog-open" (JDict []))) ≠ 422.
Proof. split; [reflexivity|]. split; [reflexivity | discriminate]. Qed.

Lemma post_batch_too_large_run :
  @post sample_fixtures
    (mkRequest "prog-open" (JList (replicate 26 (submission "a" "enrolled"))))
  = Returned (mkResponse (Text "enrollement limit 25") (Some 413)).
Proof.
  apply (@post_batch_too_large sample_fixtures "prog-open"
           (replicate 26 (submission "a" "enrolled"))); [reflexivity | simpl; lia].
Defined.

Lemma post_empty_student_key_run :
  (∀ r es,
     @enroll sample_fixtures r es (submission "" "enrolled") =
       Continue (<[KStr "" := "internal-error"]> r) (Some 207)) ∧
  ∃ m,
    @post sample_fixtures
      (mkRequest "prog-open" (JList [submission "a" "enrolled"; submission "" "enrolled"]))
    = Returned (mkResponse (Mapping m) (Some 207)) ∧
    m !! KStr "" = Some "internal-error".
Proof.
  destruct (@post_empty_student_key sample_fixtures (submission "" "enrolled"))
    as (_ & Hround & Hbatch).
  - reflexivity.
  - split; [exact Hround|].
    destruct (Hbatch "prog-open" [submission "a" "enrolled"] [])
      as (m & Hpost & _ & Hm).
    + reflexivity.
    + simpl; lia.
    + evaluated.
    + exists m. split; [exact Hpost|]. apply Hm. evaluated.
Defined.

(** A record with an empty student key does not stop the handler: it is
    recorded and the answer is 207, not 422. *)
Lemma empty_student_key_is_recorded :
  @readable sample_fixtures "prog-open" = true ∧
  @is_valid sample_fixtures (submission "" "enrolled") = false ∧
  @post sample_fixtures (mkRequest "prog-open" (JList [submission "" "enrolled"]))
  = Returned (mkResponse (Mapping {[ KStr "" := "internal-error" ]}) (Some 207)) ∧
  http_status
    (@post sample_fixtures (mkRequest "prog-open" (JList [submission "" "enrolled"])))
  ≠ 422.
Proof. split_and!; [reflexivity | reflexivity | by vm_compute | discriminate]. Qed.

Lemma post_check_order_run :
  http_status
    (@post sample_fixtures
       (mkRequest "no-such-program" (JList (replicate 26 (submission "a" "enrolled")))))
  = 404 ∧
  http_status (@post sample_fixtures (mkRequest "prog-closed" (JDict []))) = 403 ∧
  http_status (@post sample_fixtures (mkRequest "prog-open" (JDict []))) = 400 ∧
  http_status
    (@post sample_fixtures
       (mkRequest "prog-open" (JList (replicate 26 (JStr "not a record")))))
  = 413.
Proof.
  split_and!.
  - apply (@post_check_order sample_fixtures "no-such-program"). reflexivity.
  - apply (@post_check_order sample_fixtures "prog-closed" (JDict []) ) with prog_closed;
      reflexivity.
  - apply (@post_check_order sample_fixtures "prog-open" (JDict []));
      [reflexivity | discriminate].
  - apply (@post_check_order sample_fixtures "prog-open"
             (JList (replicate 26 (JStr "not a record"))))
      with (replicate 26 (JStr "not a record"));
      [reflexivity | reflexivity | simpl; lia].
Defined.

(** For a readable program, a body that is not a list and is longer than 25
    is answered with 400: neither with 422 nor with 413. *)
Lemma long_string_body_is_400 :
  @readable sample_fixtures "prog-open" = true ∧
  http_status
    (@post sample_fixtures (mkRequest "prog-open" (JStr "abcdefghijklmnopqrstuvwxyz")))
  = 400 ∧
  http_status
    (@post sample_fixtures (mkRequest "prog-open" (JStr "abcdefghijklmnopqrstuvwxyz")))
  ≠ 422.
Proof. split; [reflexivity|]. split; [reflexivity | discriminate]. Qed.

Lemma get_queryset_refusals_run :
  @list_status sample_fixtures [] = 403 ∧
  @list_status sample_fixtures [("org", "")] = 403 ∧
  @list_status sample_fixtures [("org", "unknown_org")] = 404 ∧
  @list_status sample_fixtures [("org", "org-closed")] = 403.
Proof.
  split_and!.
  - apply (@get_queryset_refusals sample_fixtures []). left. reflexivity.
  - apply (@get_queryset_refusals sample_fixtures [("org", "")]). right. reflexivity.
  - apply (@get_queryset_refusals sample_fixtures [("org", "unknown_org")])
      with "unknown_org"; [reflexivity | discriminate | reflexivity].
  - apply (@get_queryset_refusals sample_fixtures [("org", "org-closed")])
      with "org-closed" org_closed; [reflexivity | discriminate | reflexivity..].
Defined.

Lemma post_invalid_overwrites_run :
  @for_each sample_fixtures ∅ None [submission "a" "enrolled"; submission "a" "bogus"]
  = Continue {[ KStr "a" := "invalid-status" ]} (Some 207) ∧
  ∃ m,
    @post sample_fixtures
      (mkRequest "prog-open"
         (JList [submission "a" "enrolled"; submission "a" "bogus";
                 submission "c" "pending"]))
    = Returned (mkResponse (Mapping m) (Some 207)) ∧
    m !! KStr "a" = Some "invalid-status".
Proof.
  destruct (@post_invalid_overwrites sample_fixtures "prog-open"
              [submission "a" "enrolled"] (submission "a" "bogus")
              ["status"] (KStr "a") {[ KStr "a" := "enrolled" ]} None "enrolled")
    as (Hloop & _ & _ & Hrest & _).
  - reflexivity.
  - by vm_compute.
  - by vm_compute.
  - reflexivity.
  - reflexivity.
  - split.
    + etrans; [exact Hloop | by vm_compute].
    + apply (Hrest [submission "c" "pending"]); evaluated.
Defined.

(** ** Runs of the other views and of the handler as a whole *)

Lemma program_views_refuse_alike_run :
  @MockProgramCourseListView.get_queryset sample_fixtures _ sample_course_runs
    "prog-closed" = Raise PermissionDenied ∧
  @post sample_fixtures (mkRequest "prog-closed" (JList [submission "a" "enrolled"]))
  = Raised PermissionDenied.
Proof.
  destruct (@program_views_refuse_alike sample_fixtures _ sample_course_runs
              "prog-closed" PermissionDenied) as (_ & Hcourses & Hpost).
  - reflexivity.
  - split; [exact Hcourses | apply Hpost].
Defined.

Lemma views_return_only_readable_run :
  @readable sample_fixtures "prog-open" = true.
Proof.
  apply (@views_return_only_readable sample_fixtures _ sample_course_runs)
    with (prog := prog_open). reflexivity.
Defined.

Lemma course_listing_status_run :
  read_status
    (@MockProgramCourseListView.get_queryset sample_fixtures _ no_course_runs "prog-open")
  = 500.
Proof.
  apply (@course_listing_status sample_fixtures _ no_course_runs "prog-open").
  exists prog_open. evaluated.
Defined.

Lemma program_listing_status_run :
  @list_status sparse_fixtures [("org", "org-open")] = 500.
Proof.
  apply (@program_listing_status sparse_fixtures [("org", "org-open")]).
  exists "org-open", org_open. evaluated.
Defined.

Lemma post_documented_statuses_run :
  http_status
    (@post sample_fixtures
       (mkRequest "prog-open"
          (JList [submission "a" "bogus"; JDict [("student_key", JNull)];
                  JDict [("status", JStr "enrolled")]])))
  ∈ [200; 207; 403; 404; 413; 422].
Proof.
  apply (@post_documented_statuses sample_fixtures "prog-open"). evaluated.
Defined.

Lemma post_ok_iff_run :
  http_status
    (@post sample_fixtures
       (mkRequest "prog-open" (JList [submission "a" "enrolled"; submission "b" "enrolled"])))
  = 200.
Proof.
  apply (@post_ok_iff sample_fixtures "prog-open"
           [submission "a" "enrolled"; submission "b" "enrolled"]).
  - reflexivity.
  - simpl; lia.
  - exists [("a", "enrolled"); ("b", "enrolled")]. evaluated.
Defined.

Lemma post_422_iff_run :
  @post sample_fixtures
    (mkRequest "prog-open"
       (JList [submission "a" "bogus"; JDict [("status", JStr "enrolled")]]))
  = Returned student_key_required.
Proof.
  apply (@post_422_iff sample_fixtures "prog-open"
           [submission "a" "bogus"; JDict [("status", JStr "enrolled")]]).
  - reflexivity.
  - simpl; lia.
  - evaluated.
  - right. left. reflexivity.
Defined.

Lemma post_result_keys_run :
  (size ({[ KStr "a" := "duplicated"; KStr "b" := "invalid-status" ]}
           : gmap pykey string) ≤ 3)%nat.
Proof.
  apply (@post_result_keys sample_fixtures "prog-open"
           [submission "a" "enrolled"; submission "b" "bogus"; submission "a" "pending"]
           _ (Some 207)).
  by vm_compute.
Defined.

Lemma post_result_tags_run :
  "duplicated" ∈ ["enrolled"; "pending"] ∨ "duplicated" = "duplicated" ∨
  "duplicated" = "invalid-status" ∨ "duplicated" = "internal-error".
Proof.
  apply (@post_result_tags sample_fixtures "prog-open"
           [submission "a" "enrolled"; submission "b" "bogus"; submission "a" "pending"]
           {[ KStr "a" := "duplicated"; KStr "b" := "invalid-status" ]}
           (Some 207) (KStr "a")); by vm_compute.
Defined.

Lemma post_last_item_decides_run :
  ({[ KStr "a" := "duplicated"; KStr "b" := "invalid-status" ]} : gmap pykey string)
    !! KStr "a" = Some "duplicated".
Proof.
  apply (@post_last_item_decides sample_fixtures "prog-open"
           [submission "a" "enrolled"; submission "b" "bogus"]
           (submission "a" "pending") [] _ (Some 207) (KStr "a")).
  - by vm_compute.
  - reflexivity.
  - constructor.
Defined.

Lemma post_permutation_run :
  @post sample_fixtures
    (mkRequest "prog-open"
       (JList [submission "a" "enrolled"; submission "b" "pending"; submission "a" "pending"]))
  = @post sample_fixtures
      (mkRequest "prog-open"
         (JList [submission "a" "pending"; submission "a" "enrolled"; submission "b" "pending"])).
Proof.
  apply (@post_permutation sample_fixtures "prog-open").
  - symmetry. apply (Permutation_cons_append [_; _]).
  - evaluated.
Defined.

(** With a record that fails validation in the batch the order does
    matter. *)
Example order_matters_with_a_failure :
  @post sample_fixtures
    (mkRequest "prog-open" (JList [submission "a" "enrolled"; submission "a" "bogus"]))
  ≠ @post sample_fixtures
      (mkRequest "prog-open" (JList [submission "a" "bogus"; submission "a" "enrolled"])).
Proof. vm_compute. intros [= Hm]. Qed.

Lemma post_413_iff_run :
  ¬ (http_status
       (@post sample_fixtures
          (mkRequest "prog-open" (JList (replicate 25 (submission "a" "enrolled")))))
     = 413).
Proof.
  intros Hstatus.
  apply (@post_413_iff sample_fixtures "prog-open"
           (replicate 25 (submission "a" "enrolled"))) in Hstatus.
  - simpl in Hstatus. lia.
  - reflexivity.
Defined.
